(** * State and Memento demonstrations of design-patterns-scratch-pad

    A shallow embedding of the TypeScript classes under
    [src/patterns/state] (Canvas, Tool, EraserTool, SelectionTool) and
    [src/patterns/memento] (Editor, EditorState, EditorHistory), with the
    properties their specification states about them.

    JavaScript objects are mutable and passed by reference, so every method
    is a computation over an explicit state; a method either completes
    normally or throws, and the engine itself throws a [TypeError] when a
    property of [undefined] is read. *)

From stdpp Require Import list strings.

Set Default Proof Using "Type".

(** ** Completions and the state-and-exception monad *)

Module JS.

(** The exceptions a method of these classes can raise. The engine raises
    [TypeError] (reading a property of [undefined], calling what is not a
    function); [Error] is what a [throw new Error(msg)] statement of the
    program itself would raise. *)
Inductive exn :=
| TypeError (msg : string)
| Error (msg : string).

(** "TypeError: Cannot read properties of undefined (reading 'prop')" *)
Definition cannot_read_undefined (prop : string) : exn :=
  TypeError ("Cannot read properties of undefined (reading '" +:+ prop +:+ "')").

(** How a call ends. [Stuck] marks what JavaScript's memory safety and
    TypeScript's types exclude (an address that was never allocated, a
    receiver of another class). *)
Inductive outcome (S A : Type) :=
| Return (a : A) (s : S)
| Throw (e : exn) (s : S)
| Stuck.
Arguments Return {S A} a s.
Arguments Throw {S A} e s.
Arguments Stuck {S A}.

Definition M (S A : Type) := S -> outcome S A.

Definition ret {S A} (a : A) : M S A := fun s => Return a s.
Definition throw {S A} (e : exn) : M S A := fun s => Throw e s.
Definition stuck {S A} : M S A := fun _ => Stuck.

(** Sequencing: an exception of the first statement skips the rest and
    keeps the state reached so far. *)
Definition bind {S A B} (m : M S A) (k : A -> M S B) : M S B :=
  fun s =>
    match m s with
    | Return a s' => k a s'
    | Throw e s' => Throw e s'
    | Stuck => Stuck
    end.

Definition get {S} : M S S := fun s => Return s s.

(** Has the call thrown, and what? *)
Definition thrown {S A} (o : outcome S A) : option exn :=
  match o with Throw e _ => Some e | _ => None end.

(** A null-reference fault: the engine's own [TypeError] for a property
    read on [undefined]. *)
Definition is_null_reference_fault (e : exn) : bool :=
  match e with
  | TypeError msg => String.prefix "Cannot read properties of undefined" msg
  | Error _ => false
  end.

(** An explicit error of the program: one raised by a [throw] statement. *)
Definition is_explicit_error (e : exn) : bool :=
  match e with Error _ => true | TypeError _ => false end.

End JS.
Import JS.

Declare Scope js_scope.
Delimit Scope js_scope with js.
Notation "x <- m ;; k" := (bind m (fun x => k))
  (at level 100, m at next level, right associativity) : js_scope.
Notation "m ;; k" := (bind m (fun _ => k))
  (at level 100, right associativity) : js_scope.
Open Scope js_scope.

(** ** The State pattern: src/patterns/state *)

Module State.

Section Tools.
(** Everything a tool's handlers can observe or change; in this
    repository, the console. Tool methods take no argument, and the tools
    of this repository hold no reference to the canvas that hosts them; a
    tool whose handler called setTool on its own canvas is not covered. *)
Context {W : Type}.

(** Modelled from the spec: the interface Tool, whose file tool.ts is not
    among the sources; its two methods, without argument or result, are
    those that EraserTool and SelectionTool implement and Canvas calls.
    [T] is the implementing class, its values the instances. *)
Class Tool (T : Type) := {
  mouseDown : T -> M W unit;
  mouseUp : T -> M W unit;
}.

(** A reference of static type [Tool]: an instance of some implementing
    class, with that class's method table. *)
Record ToolRef := toolRef {
  tool_class : Type;
  tool_impl : Tool tool_class;
  tool_this : tool_class;
}.

Definition ToolRef_mouseDown (t : ToolRef) : M W unit :=
  @mouseDown _ (tool_impl t) (tool_this t).
Definition ToolRef_mouseUp (t : ToolRef) : M W unit :=
  @mouseUp _ (tool_impl t) (tool_this t).

(** [class Canvas { private tool: Tool; ... }]: the field has no
    initializer, so it reads [undefined] ([None]) until [setTool]. *)
Record Canvas := { tool : option ToolRef }.

Definition new_Canvas : Canvas := {| tool := None |}.

(** The state a caller of the canvas runs in. *)
Record state := { canvas : Canvas; world : W }.

(** Run a tool's handler on the world, leaving the canvas object alone. *)
Definition in_world {A} (m : M W A) : M state A :=
  fun s =>
    match m (world s) with
    | Return a w => Return a {| canvas := canvas s; world := w |}
    | Throw e w => Throw e {| canvas := canvas s; world := w |}
    | Stuck => Stuck
    end.

(** [setTool(tool) { this.tool = tool; }] *)
Definition Canvas_setTool (t : ToolRef) : M state unit :=
  fun s => Return tt {| canvas := {| tool := Some t |}; world := world s |}.

(** [mouseUp() { this.tool.mouseUp(); }] *)
Definition Canvas_mouseUp : M state unit :=
  s <- get;;
  match tool (canvas s) with
  | None => throw (cannot_read_undefined "mouseUp")
  | Some t => in_world (ToolRef_mouseUp t)
  end.

(** [mouseDown() { this.tool.mouseDown(); }] *)
Definition Canvas_mouseDown : M state unit :=
  s <- get;;
  match tool (canvas s) with
  | None => throw (cannot_read_undefined "mouseDown")
  | Some t => in_world (ToolRef_mouseDown t)
  end.

(** A caller's [canvas.setTool(t1); ...; canvas.setTool(tn);]. *)
Fixpoint setTools (ts : list ToolRef) : M state unit :=
  match ts with
  | [] => ret tt
  | t :: ts' => Canvas_setTool t;; setTools ts'
  end.

End Tools.
Arguments ToolRef W : clear implicits.
Arguments Canvas W : clear implicits.
Arguments state W : clear implicits.
Arguments Tool W T : clear implicits.

(** *** The two tools of the repository, which write to the console *)

Definition console := list string.

(** [console.log(line)] *)
Definition console_log (line : string) : M console unit :=
  fun out => Return tt (out ++ [line]).

(** states/EraserTool.ts *)
Inductive EraserTool := new_EraserTool.

#[export] Instance EraserTool_Tool : Tool console EraserTool := {|
  mouseDown _ := console_log "eraser tool selected";
  mouseUp _ := console_log "erasing from canvas";
|}.

(** states/SelectionTool.ts *)
Inductive SelectionTool := new_SelectionTool.

#[export] Instance SelectionTool_Tool : Tool console SelectionTool := {|
  mouseDown _ := console_log "selection tool selected";
  mouseUp _ := console_log "draw box";
|}.

Definition eraser : ToolRef console := toolRef _ EraserTool_Tool new_EraserTool.
Definition selection : ToolRef console := toolRef _ SelectionTool_Tool new_SelectionTool.

(** StateTestImplementation.runImpl, on a console [out]: the canvas is a
    local of the method. *)
Definition StateTestImplementation_runImpl : M console unit :=
  fun out =>
    match
      (Canvas_setTool eraser;;
       Canvas_mouseUp;;
       Canvas_mouseDown;;
       Canvas_setTool selection;;
       Canvas_mouseUp;;
       Canvas_mouseDown) {| canvas := new_Canvas; world := out |}
    with
    | Return a s => Return a (world s)
    | Throw e s => Throw e (world s)
    | Stuck => Stuck
    end.

End State.

(** ** The Memento pattern: src/patterns/memento *)

Module Memento.

(** Objects live in a heap and are known by their address. Nothing is ever
    freed, so the heap is the list of the objects allocated so far and a
    [new] takes the next index. *)
Abbreviation loc := nat.

(** The values these classes handle: [undefined], a string (an immutable
    primitive, copied by assignment), or a reference to an object. *)
Inductive jsval :=
| undefined
| jsstring (s : string)
| jsref (l : loc).

(** One constructor per class, with the class's fields; [ArrayObj] is a
    JavaScript array. *)
Inductive object :=
| EditorObj (content : jsval)
| EditorStateObj (content : jsval)
| EditorHistoryObj (history : loc)
| ArrayObj (elems : list jsval).

Abbreviation heap := (list object).

Definition alloc (o : object) : M heap loc :=
  fun h => Return (length h) (h ++ [o]).

Definition load (l : loc) : M heap object :=
  fun h => match h !! l with Some o => Return o h | None => Stuck end.

Definition store (l : loc) (o : object) : M heap unit :=
  fun h => Return tt (<[l := o]> h).

(** *** EditorState *)

(** Modelled from the spec: the class EditorState, whose file EditorState.ts
    is not among the sources. Its constructor takes the content and keeps it
    in a field of the new object; nothing but the constructor writes that
    field, and the snapshot holds no reference to the editor. *)
Definition new_EditorState (content : jsval) : M heap jsval :=
  l <- alloc (EditorStateObj content);; ret (jsref l).

(** Modelled from the spec: EditorState.getContent returns the captured
    value. *)
Definition EditorState_getContent (this : loc) : M heap jsval :=
  o <- load this;;
  match o with
  | EditorStateObj content => ret content
  | _ => stuck
  end.

(** *** Editor.ts *)

(** [new Editor()]: [private content: string;] has no initializer. *)
Definition new_Editor : M heap loc := alloc (EditorObj undefined).

(** [this.content] *)
Definition Editor_content (this : loc) : M heap jsval :=
  o <- load this;;
  match o with
  | EditorObj content => ret content
  | _ => stuck
  end.

(** [getContent() { return this.content; }] *)
Definition Editor_getContent (this : loc) : M heap jsval :=
  Editor_content this.

(** [setContent(content) { this.content = content; }] *)
Definition Editor_setContent (this : loc) (content : jsval) : M heap unit :=
  o <- load this;;
  match o with
  | EditorObj _ => store this (EditorObj content)
  | _ => stuck
  end.

(** [createState() { return new EditorState(this.content); }] *)
Definition Editor_createState (this : loc) : M heap jsval :=
  content <- Editor_content this;;
  new_EditorState content.

(** The call [state.getContent()] on a value: the engine throws on
    [undefined], and on a value that has no such method; [Editor] and
    [EditorState] both have one. *)
Definition call_getContent (state : jsval) : M heap jsval :=
  match state with
  | undefined => throw (cannot_read_undefined "getContent")
  | jsstring _ => throw (TypeError "state.getContent is not a function")
  | jsref l =>
      o <- load l;;
      match o with
      | EditorStateObj _ => EditorState_getContent l
      | EditorObj _ => Editor_getContent l
      | _ => throw (TypeError "state.getContent is not a function")
      end
  end.

(** [restore(state) { this.setContent(state.getContent()); }] *)
Definition Editor_restore (this : loc) (state : jsval) : M heap unit :=
  content <- call_getContent state;;
  Editor_setContent this content.

(** *** Arrays *)

(** [Array.prototype.push]: appends at the end, returns the new length. *)
Definition Array_push (arr : loc) (x : jsval) : M heap nat :=
  o <- load arr;;
  match o with
  | ArrayObj elems =>
      store arr (ArrayObj (elems ++ [x]));; ret (length (elems ++ [x]))
  | _ => stuck
  end.

(** [Array.prototype.pop]: removes the last element and returns it;
    [undefined] on an empty array, which it leaves as it is. *)
Definition Array_pop (arr : loc) : M heap jsval :=
  o <- load arr;;
  match o with
  | ArrayObj elems =>
      match last elems with
      | None => ret undefined
      | Some x => store arr (ArrayObj (removelast elems));; ret x
      end
  | _ => stuck
  end.

(** *** EditorHistory (History.ts) *)

(** [new EditorHistory()]: [public history = [];] *)
Definition new_EditorHistory : M heap loc :=
  arr <- alloc (ArrayObj []);;
  alloc (EditorHistoryObj arr).

(** [this.history] *)
Definition EditorHistory_history (this : loc) : M heap loc :=
  o <- load this;;
  match o with
  | EditorHistoryObj history => ret history
  | _ => stuck
  end.

(** [push(editor) { this.history.push(editor); }] *)
Definition EditorHistory_push (this : loc) (editor : jsval) : M heap unit :=
  history <- EditorHistory_history this;;
  Array_push history editor;;
  ret tt.

(** [pop() { return this.history.pop(); }] *)
Definition EditorHistory_pop (this : loc) : M heap jsval :=
  history <- EditorHistory_history this;;
  Array_pop history.

(** *** MementoTestImplementation.ts *)

(** The console records the arguments of each [console.log] call. *)
Definition console := list (list jsval).

Definition console_log (args : list jsval) : M (heap * console) unit :=
  fun s => Return tt (s.1, s.2 ++ [args]).

Definition in_heap {A} (m : M heap A) : M (heap * console) A :=
  fun s =>
    match m s.1 with
    | Return a h => Return a (h, s.2)
    | Throw e h => Throw e (h, s.2)
    | Stuck => Stuck
    end.

Definition MementoTestImplementation_runImpl : M (heap * console) unit :=
  editor <- in_heap new_Editor;;
  history <- in_heap new_EditorHistory;;
  in_heap (Editor_setContent editor (jsstring "Hello"));;
  in_heap (s <- Editor_createState editor;; EditorHistory_push history s);;
  in_heap (Editor_setContent editor (jsstring "I am"));;
  in_heap (s <- Editor_createState editor;; EditorHistory_push history s);;
  in_heap (Editor_setContent editor (jsstring "Muhammad"));;
  in_heap (s <- Editor_createState editor;; EditorHistory_push history s);;
  v <- in_heap (Editor_getContent editor);;
  console_log [jsstring "editor.value="; v];;
  in_heap (s <- EditorHistory_pop history;; Editor_restore editor s);;
  v <- in_heap (Editor_getContent editor);;
  console_log [jsstring "editor.value="; v].

End Memento.

(** ** Callers and vocabulary of the properties *)

Module Props.
Import State Memento.

(** The policy "fail fast with an explicit error, not with a null-reference
    fault": the call throws, and what it throws was raised by the program
    itself. *)
Definition fails_fast_explicitly {S A} (o : outcome S A) : Prop :=
  exists e, thrown o = Some e /\
            is_explicit_error e = true /\ is_null_reference_fault e = false.

(** [v] refers to a snapshot of the heap [h]. *)
Definition is_snapshot (h : heap) (v : jsval) : Prop :=
  exists l content, v = jsref l /\ h !! l = Some (EditorStateObj content).

(** The content a snapshot of [h] has captured. *)
Definition captured (h : heap) (v : jsval) : jsval :=
  match v with
  | jsref l =>
      match h !! l with
      | Some (EditorStateObj content) => content
      | _ => undefined
      end
  | _ => undefined
  end.

(** [this] is an EditorHistory of [h] whose array is [arr] and holds
    [elems], oldest first. *)
Definition is_history (h : heap) (this arr : loc) (elems : list jsval) : Prop :=
  h !! this = Some (EditorHistoryObj arr) /\ h !! arr = Some (ArrayObj elems).

(** The calls that write an editor's content. *)
Inductive editor_call :=
| SetContent (content : jsval)
| Restore (state : jsval).

Definition do_call (editor : loc) (c : editor_call) : M heap unit :=
  match c with
  | SetContent content => Editor_setContent editor content
  | Restore state => Editor_restore editor state
  end.

(** A caller's sequence of such calls on one editor. *)
Fixpoint do_calls (editor : loc) (cs : list editor_call) : M heap unit :=
  match cs with
  | [] => ret tt
  | c :: cs' => do_call editor c;; do_calls editor cs'
  end.

(** The value a call gives the editor: its argument, or what the snapshot
    it is given has captured. *)
Definition value_of (h : heap) (c : editor_call) : jsval :=
  match c with
  | SetContent content => content
  | Restore state => captured h state
  end.

(** A call whose argument has the type the method declares. *)
Definition well_typed_call (h : heap) (c : editor_call) : Prop :=
  match c with
  | SetContent _ => True
  | Restore state => is_snapshot h state
  end.

(** [history.push(s1); ...; history.push(sn);] *)
Fixpoint pushes (history : loc) (ss : list jsval) : M heap unit :=
  match ss with
  | [] => ret tt
  | s :: ss' => EditorHistory_push history s;; pushes history ss'
  end.

(** [n] consecutive [history.pop()], with what they returned, in order. *)
Fixpoint pops (history : loc) (n : nat) : M heap (list jsval) :=
  match n with
  | 0 => ret []
  | S n' => s <- EditorHistory_pop history;;
            rest <- pops history n';;
            ret (s :: rest)
  end.

(** [s1.getContent(), ..., sn.getContent()] *)
Fixpoint contents (ss : list jsval) : M heap (list jsval) :=
  match ss with
  | [] => ret []
  | s :: ss' => c <- call_getContent s;;
                rest <- contents ss';;
                ret (c :: rest)
  end.

(** The pushes of MementoTestImplementation.runImpl, followed by three
    pops and the content of what each returned. *)
Definition three_pushes_three_pops : M heap (list jsval) :=
  editor <- new_Editor;;
  history <- new_EditorHistory;;
  Editor_setContent editor (jsstring "Hello");;
  (s <- Editor_createState editor;; EditorHistory_push history s);;
  Editor_setContent editor (jsstring "I am");;
  (s <- Editor_createState editor;; EditorHistory_push history s);;
  Editor_setContent editor (jsstring "Muhammad");;
  (s <- Editor_createState editor;; EditorHistory_push history s);;
  popped <- pops history 3;;
  contents popped.

(** An editor holding "draft" at address 0, a snapshot of "saved" at 1, and
    at 3 a history whose array, at 2, holds that snapshot. *)
Definition sample_heap : heap :=
  [EditorObj (jsstring "draft"); EditorStateObj (jsstring "saved");
   ArrayObj [jsref 1]; EditorHistoryObj 2].

(** A history, at 1, that holds nothing. *)
Definition empty_history_heap : heap := [ArrayObj []; EditorHistoryObj 0].

(** What a call has returned, when it returned. *)
Definition returned {S A} (o : outcome S A) : option A :=
  match o with Return a _ => Some a | _ => None end.

(** The policy "signal the empty history explicitly", of the outcome of a
    pop on a history that holds nothing: it fails with an explicit error,
    or it returns a value that pop returns on no history that holds
    something, so that the caller can tell the two apart. *)
Definition signals_history_empty (o : outcome heap jsval) : Prop :=
  fails_fast_explicitly o \/
  exists v, returned o = Some v /\
    forall (h : heap) (this arr : loc) (elems : list jsval),
      is_history h this arr elems -> elems <> [] ->
      returned (EditorHistory_pop this h) <> Some v.

(** The history of [empty_history_heap] after [push(undefined)]. *)
Definition undefined_history_heap : heap :=
  [ArrayObj [undefined]; EditorHistoryObj 0].

(** The state an outcome ends in, when there is one. *)
Definition final_state {S A} (o : outcome S A) : option S :=
  match o with
  | Return _ s | Throw _ s => Some s
  | Stuck => None
  end.

End Props.

(** ** Callers of the two patterns *)

Module Clients.
Import State Memento Props.

(** The two events a caller dispatches on a canvas. *)
Inductive event := MouseDown | MouseUp.

Section Events.
Context {W : Type}.

(** [canvas.mouseDown()] or [canvas.mouseUp()] *)
Definition dispatch (ev : event) : M (state W) unit :=
  match ev with
  | MouseDown => Canvas_mouseDown
  | MouseUp => Canvas_mouseUp
  end.

(** A caller's sequence of dispatches, one statement after the other. *)
Fixpoint dispatch_all (evs : list event) : M (state W) unit :=
  match evs with
  | [] => ret tt
  | ev :: evs' => dispatch ev;; dispatch_all evs'
  end.

(** The handler of tool [t] for an event, and handlers in sequence. *)
Definition handle (t : ToolRef W) (ev : event) : M W unit :=
  match ev with
  | MouseDown => ToolRef_mouseDown t
  | MouseUp => ToolRef_mouseUp t
  end.

Fixpoint handle_all (t : ToolRef W) (evs : list event) : M W unit :=
  match evs with
  | [] => ret tt
  | ev :: evs' => handle t ev;; handle_all t evs'
  end.

End Events.

(** What EraserTool and SelectionTool print on an event. *)
Definition EraserTool_line (ev : event) : string :=
  match ev with
  | MouseDown => "eraser tool selected"
  | MouseUp => "erasing from canvas"
  end.

Definition SelectionTool_line (ev : event) : string :=
  match ev with
  | MouseDown => "selection tool selected"
  | MouseUp => "draw box"
  end.

(** [history.push(editor.createState())], the statement of
    MementoTestImplementation.runImpl that saves the editor's content. *)
Definition save (editor history : loc) : M heap unit :=
  s <- Editor_createState editor;; EditorHistory_push history s.

(** [editor.restore(history.pop())], its statement that undoes. *)
Definition undo (editor history : loc) : M heap unit :=
  s <- EditorHistory_pop history;; Editor_restore editor s.

(** What a caller does with an editor and its history. *)
Inductive client_op :=
| Edit (content : jsval)
| Save
| Undo.

Definition run_op (editor history : loc) (op : client_op) : M heap unit :=
  match op with
  | Edit content => Editor_setContent editor content
  | Save => save editor history
  | Undo => undo editor history
  end.

Fixpoint run_ops (editor history : loc) (ops : list client_op) : M heap unit :=
  match ops with
  | [] => ret tt
  | op :: ops' => run_op editor history op;; run_ops editor history ops'
  end.

(** The text editor the two classes implement together: the current
    content, and the saved contents, oldest first. *)
Record memo := { current : jsval; saved : list jsval }.

(** One operation on it; an undo with nothing saved has no result. *)
Definition memo_step (op : client_op) (m : memo) : option memo :=
  match op with
  | Edit content => Some {| current := content; saved := saved m |}
  | Save => Some {| current := current m; saved := saved m ++ [current m] |}
  | Undo =>
      match last (saved m) with
      | Some content => Some {| current := content; saved := removelast (saved m) |}
      | None => None
      end
  end.

(** A sequence of operations: where it ends, and whether it ran to its end
    ([false]: it stopped at an undo that found nothing saved). *)
Fixpoint memo_run (ops : list client_op) (m : memo) : memo * bool :=
  match ops with
  | [] => (m, true)
  | op :: ops' =>
      match memo_step op m with
      | Some m' => memo_run ops' m'
      | None => (m, false)
      end
  end.

(** The entries [xs] of a history are snapshots of [h] that have captured
    the contents [vs], entry by entry. *)
Definition captures (h : heap) (xs vs : list jsval) : Prop :=
  Forall2 (fun x v => exists s : loc, x = jsref s /\ h !! s = Some (EditorStateObj v))
          xs vs.

(** The heap [h] holds the editor and the history of the text editor [m]. *)
Definition represents (h : heap) (editor history arr : loc) (m : memo) : Prop :=
  h !! editor = Some (EditorObj (current m)) /\
  exists xs, is_history h history arr xs /\ captures h xs (saved m).

(** Every object of [h] other than those at [editor] and [arr] is in [h']
    as it was. *)
Definition unchanged_outside (editor arr : loc) (h h' : heap) : Prop :=
  forall (k : loc) (o : object),
    h !! k = Some o -> k <> editor -> k <> arr -> h' !! k = Some o.

(** [setContent(c1); push(createState()); ...; setContent(cn);
    push(createState());] *)
Definition edits_and_saves (cs : list jsval) : list client_op :=
  flat_map (fun c => [Edit c; Save]) cs.

(** An editor holding "draft" at address 0 and, at 2, a history whose
    array, at 1, holds nothing. *)
Definition unsaved_heap : heap :=
  [EditorObj (jsstring "draft"); ArrayObj []; EditorHistoryObj 1].

End Clients.

(** * Properties of the State pattern *)

Module StateSpec.
Import State Props.

Section Canvas_properties.
Context {W : Type}.
Implicit Types (c : Canvas W) (w : W) (t X : ToolRef W).

Lemma setTool_state c w t :
  Canvas_setTool t {| canvas := c; world := w |} =
  Return tt {| canvas := {| tool := Some t |}; world := w |}.
Proof. reflexivity. Qed.

Lemma setTools_snoc c w ts t :
  setTools (ts ++ [t]) {| canvas := c; world := w |} =
  Return tt {| canvas := {| tool := Some t |}; world := w |}.
Proof.
  revert c. induction ts as [|t' ts IH]; intros c; [reflexivity|].
  cbn [app setTools]. unfold bind at 1. rewrite setTool_state. apply IH.
Qed.

(** C1 (as the code has it): on a fresh canvas, on which setTool was never
    called, mouseDown and mouseUp throw the engine's TypeError for reading a
    property of undefined, a null-reference fault and not an error of the
    program's own; no handler runs: canvas and world stay as they were. *)
Theorem C1_dispatch_before_setTool_is_null_reference_fault w :
  let fresh := {| canvas := new_Canvas; world := w |} in
  Canvas_mouseDown fresh = Throw (cannot_read_undefined "mouseDown") fresh /\
  Canvas_mouseUp fresh = Throw (cannot_read_undefined "mouseUp") fresh /\
  is_null_reference_fault (cannot_read_undefined "mouseDown") = true /\
  is_null_reference_fault (cannot_read_undefined "mouseUp") = true /\
  is_explicit_error (cannot_read_undefined "mouseDown") = false /\
  is_explicit_error (cannot_read_undefined "mouseUp") = false.
Proof. repeat split. Qed.

(** C6: after any sequence of setTool calls, the next mouseDown or mouseUp
    is exactly the corresponding handler of the tool set last, run on the
    world as it was before the first setTool: no handler of an earlier tool
    runs, whatever those handlers would do. *)
Theorem C6_dispatch_routes_to_last_set_tool c w ts t :
  (setTools (ts ++ [t]);; Canvas_mouseDown) {| canvas := c; world := w |} =
    in_world (ToolRef_mouseDown t) {| canvas := {| tool := Some t |}; world := w |} /\
  (setTools (ts ++ [t]);; Canvas_mouseUp) {| canvas := c; world := w |} =
    in_world (ToolRef_mouseUp t) {| canvas := {| tool := Some t |}; world := w |}.
Proof.
  split; unfold bind at 1; rewrite setTools_snoc; reflexivity.
Qed.

(** C7: setTool(X) returns normally on every canvas and every tool X, leaves
    the world untouched, so that no handler of X or of the tool set before
    has run, and changes nothing but the tool field, which now holds X; when
    X is the tool already set the whole state is unchanged. The handlers of
    X run when an event is dispatched after it. *)
Theorem C7_setTool_only_replaces_tool c w X :
  let s := {| canvas := c; world := w |} in
  let s' := {| canvas := {| tool := Some X |}; world := w |} in
  Canvas_setTool X s = Return tt s' /\
  Canvas_setTool X s' = Return tt s' /\
  (Canvas_setTool X;; Canvas_mouseDown) s =
    in_world (ToolRef_mouseDown X) {| canvas := {| tool := Some X |}; world := w |} /\
  (Canvas_setTool X;; Canvas_mouseUp) s =
    in_world (ToolRef_mouseUp X) {| canvas := {| tool := Some X |}; world := w |}.
Proof.
  cbn zeta. repeat split.
Qed.

End Canvas_properties.

(** The demonstration of the repository: what each tool writes. *)
Example runImpl_console :
  StateTestImplementation_runImpl [] =
  Return tt ["erasing from canvas"; "eraser tool selected";
             "draw box"; "selection tool selected"].
Proof. reflexivity. Qed.

(** C1 (as the spec states it) fails: on a fresh canvas with an empty
    console neither mouseDown nor mouseUp fails with an explicit error; what
    each throws is the engine's null-reference TypeError. *)
Lemma C1_counterexample :
  let fresh := {| canvas := new_Canvas; world := ([] : console) |} in
  ~ fails_fast_explicitly (Canvas_mouseDown fresh) /\
  ~ fails_fast_explicitly (Canvas_mouseUp fresh).
Proof.
  split; intros (e & He & _ & Hnull); cbn in He; injection He as <-;
    vm_compute in Hnull; discriminate Hnull.
Qed.

End StateSpec.

(** * Properties of the Memento pattern *)

Module MementoSpec.
Import Memento Props.

Implicit Types (h : heap) (e l arr : loc) (v content : jsval).

(** *** Sequencing *)

Lemma bind_Return {S A B} (m : M S A) (k : A -> M S B) (st st' : S) (a : A) :
  m st = Return a st' -> bind m k st = k a st'.
Proof. unfold bind. intros ->. reflexivity. Qed.

Lemma bind_Throw {S A B} (m : M S A) (k : A -> M S B) (st st' : S) (ex : exn) :
  m st = Throw ex st' -> bind m k st = Throw ex st'.
Proof. unfold bind. intros ->. reflexivity. Qed.

Lemma bind_Stuck {S A B} (m : M S A) (k : A -> M S B) (st : S) :
  m st = Stuck -> bind m k st = Stuck.
Proof. unfold bind. intros ->. reflexivity. Qed.

(** Run the first statement of a sequence, given what it evaluates to. *)
Tactic Notation "step" uconstr(H) := rewrite (bind_Return _ _ _ _ _ H).

Lemma load_Some h l (o : object) : h !! l = Some o -> load l h = Return o h.
Proof. unfold load. intros ->. reflexivity. Qed.

(** *** The methods of Editor and EditorState, on an allocated receiver *)

Lemma getContent_eq h e content :
  h !! e = Some (EditorObj content) -> Editor_getContent e h = Return content h.
Proof.
  intros He. unfold Editor_getContent, Editor_content.
  step (load_Some _ _ _ He). reflexivity.
Qed.

Lemma setContent_eq h e content v :
  h !! e = Some (EditorObj content) ->
  Editor_setContent e v h = Return tt (<[e := EditorObj v]> h).
Proof.
  intros He. unfold Editor_setContent.
  step (load_Some _ _ _ He). reflexivity.
Qed.

Lemma createState_eq h e content :
  h !! e = Some (EditorObj content) ->
  Editor_createState e h =
  Return (jsref (length h)) (h ++ [EditorStateObj content]).
Proof.
  intros He. unfold Editor_createState.
  step (getContent_eq _ _ _ He). reflexivity.
Qed.

Lemma snapshot_getContent_eq h (s : loc) content :
  h !! s = Some (EditorStateObj content) ->
  call_getContent (jsref s) h = Return content h.
Proof.
  intros Hs. unfold call_getContent.
  step (load_Some _ _ _ Hs).
  unfold EditorState_getContent.
  step (load_Some _ _ _ Hs). reflexivity.
Qed.

Lemma restore_eq h e (s : loc) content0 content :
  h !! e = Some (EditorObj content0) ->
  h !! s = Some (EditorStateObj content) ->
  Editor_restore e (jsref s) h = Return tt (<[e := EditorObj content]> h).
Proof.
  intros He Hs. unfold Editor_restore.
  step (snapshot_getContent_eq _ _ _ Hs).
  eapply setContent_eq, He.
Qed.

(** Writing the editor's field leaves every other object where it is. *)
Lemma lookup_write_editor h e l (o : object) v :
  h !! l = Some o -> l <> e -> <[e := EditorObj v]> h !! l = Some o.
Proof. intros Hl Hne. rewrite list_lookup_insert_ne; [exact Hl | congruence]. Qed.

Lemma lookup_written_editor h e content v :
  h !! e = Some (EditorObj content) -> <[e := EditorObj v]> h !! e = Some (EditorObj v).
Proof. intros He. apply list_lookup_insert_eq. eapply lookup_lt_Some, He. Qed.

Lemma snapshot_not_editor h e (s : loc) content0 content :
  h !! e = Some (EditorObj content0) ->
  h !! s = Some (EditorStateObj content) -> s <> e.
Proof. intros He Hs ->. congruence. Qed.

Lemma is_snapshot_write_editor h e content0 v state :
  h !! e = Some (EditorObj content0) ->
  is_snapshot h state ->
  is_snapshot (<[e := EditorObj v]> h) state /\
  captured (<[e := EditorObj v]> h) state = captured h state.
Proof.
  intros He (l & content & -> & Hl).
  assert (l <> e) as Hne by eauto using snapshot_not_editor.
  split.
  - exists l, content. split; [reflexivity|]. by apply lookup_write_editor.
  - cbn. rewrite (lookup_write_editor _ _ _ _ v Hl Hne), Hl. reflexivity.
Qed.

(** *** Sequences of calls on one editor *)

Lemma do_call_well_typed h e content0 (c : editor_call) :
  h !! e = Some (EditorObj content0) ->
  well_typed_call h c ->
  do_call e c h = Return tt (<[e := EditorObj (value_of h c)]> h).
Proof.
  intros He Hc. destruct c as [v|state]; cbn [do_call value_of].
  - eapply setContent_eq, He.
  - destruct Hc as (l & content & -> & Hl). cbn [captured]. rewrite Hl.
    eapply restore_eq; eassumption.
Qed.

Lemma do_calls_well_typed e (cs : list editor_call) :
  forall h content0 (c : editor_call),
    h !! e = Some (EditorObj content0) ->
    Forall (well_typed_call h) (cs ++ [c]) ->
    do_calls e (cs ++ [c]) h = Return tt (<[e := EditorObj (value_of h c)]> h).
Proof.
  induction cs as [|c' cs IH]; intros h content0 c He Hall.
  - cbn [app] in Hall. apply (proj1 (Forall_singleton _ _)) in Hall.
    cbn [app do_calls].
    step (do_call_well_typed _ _ _ _ He Hall).
    reflexivity.
  - cbn [app] in Hall. apply Forall_cons in Hall as [Hc' Hall].
    cbn [app do_calls].
    step (do_call_well_typed _ _ _ _ He Hc').
    set (h1 := <[e := EditorObj (value_of h c')]> h).
    assert (Forall (well_typed_call h1) (cs ++ [c])) as Hall1.
    { eapply Forall_impl; [exact Hall|]. intros [v|state]; cbn; [done|].
      intros Hs. eapply is_snapshot_write_editor; eassumption. }
    rewrite (IH h1 (value_of h c') c);
      [| eapply lookup_written_editor, He | exact Hall1].
    assert (value_of h1 c = value_of h c) as ->.
    { apply Forall_app in Hall as [_ Hc].
      apply (proj1 (Forall_singleton _ _)) in Hc.
      destruct c as [v|state]; cbn; [done|].
      eapply is_snapshot_write_editor; eassumption. }
    unfold h1. rewrite list_insert_insert_eq. reflexivity.
Qed.

(** [v.getContent()] on a reference: dispatch on the class of the object. *)
Lemma call_getContent_ref h l (o : object) :
  h !! l = Some o ->
  call_getContent (jsref l) h =
  match o with
  | EditorObj content | EditorStateObj content => Return content h
  | _ => Throw (TypeError "state.getContent is not a function") h
  end.
Proof.
  intros Hl. unfold call_getContent.
  step (load_Some _ _ _ Hl).
  destruct o; try reflexivity.
  - by apply getContent_eq.
  - unfold EditorState_getContent.
    by step (load_Some _ _ _ Hl).
Qed.

(** Whatever its argument, a call on the editor writes at most the editor's
    own field. *)
Lemma do_call_cases h e content0 (c : editor_call) :
  h !! e = Some (EditorObj content0) ->
  do_call e c h = Stuck \/
  (exists ex, do_call e c h = Throw ex h) \/
  (exists v, do_call e c h = Return tt (<[e := EditorObj v]> h)).
Proof.
  intros He. destruct c as [v|[ |str|l]]; cbn [do_call].
  - right; right. exists v. eapply setContent_eq, He.
  - right; left. eexists. reflexivity.
  - right; left. eexists. reflexivity.
  - unfold Editor_restore. destruct (h !! l) as [o|] eqn:Hl.
    + pose proof (call_getContent_ref _ _ _ Hl) as Hget.
      destruct o as [content|content|history|elems].
      * right; right. exists content.
        step Hget. eapply setContent_eq, He.
      * right; right. exists content.
        step Hget. eapply setContent_eq, He.
      * right; left. eexists. apply (bind_Throw _ _ _ _ _ Hget).
      * right; left. eexists. apply (bind_Throw _ _ _ _ _ Hget).
    + left. apply bind_Stuck. unfold call_getContent, bind, load.
      rewrite Hl. reflexivity.
Qed.

Lemma do_calls_write_editor_only e (cs : list editor_call) :
  forall h content0 h',
    h !! e = Some (EditorObj content0) ->
    final_state (do_calls e cs h) = Some h' ->
    exists v, h' = <[e := EditorObj v]> h.
Proof.
  induction cs as [|c cs IH]; intros h content0 h' He Hfin.
  - cbn in Hfin. injection Hfin as <-. exists content0.
    symmetry. apply list_insert_id, He.
  - cbn [do_calls] in Hfin.
    destruct (do_call_cases h e content0 c He) as [Hc|[[ex Hc]|[v Hc]]].
    + rewrite (bind_Stuck _ _ _ Hc) in Hfin. discriminate.
    + rewrite (bind_Throw _ _ _ _ _ Hc) in Hfin. cbn in Hfin.
      injection Hfin as <-. exists content0. symmetry. apply list_insert_id, He.
    + rewrite (bind_Return _ _ _ _ _ Hc) in Hfin.
      eapply IH in Hfin as [v' ->]; [| eapply lookup_written_editor, He].
      exists v'. apply list_insert_insert_eq.
Qed.

(** *** Arrays and EditorHistory, on an allocated receiver *)

Lemma Array_push_eq h arr (xs : list jsval) v :
  h !! arr = Some (ArrayObj xs) ->
  Array_push arr v h =
  Return (length (xs ++ [v])) (<[arr := ArrayObj (xs ++ [v])]> h).
Proof.
  intros Ha. unfold Array_push.
  step (load_Some _ _ _ Ha). reflexivity.
Qed.

Lemma Array_pop_nil h arr :
  h !! arr = Some (ArrayObj []) -> Array_pop arr h = Return undefined h.
Proof.
  intros Ha. unfold Array_pop.
  step (load_Some _ _ _ Ha). reflexivity.
Qed.

Lemma Array_pop_snoc h arr (xs : list jsval) v :
  h !! arr = Some (ArrayObj (xs ++ [v])) ->
  Array_pop arr h = Return v (<[arr := ArrayObj xs]> h).
Proof.
  intros Ha. unfold Array_pop.
  step (load_Some _ _ _ Ha).
  rewrite last_snoc, removelast_last. reflexivity.
Qed.

Lemma history_field_eq h l arr :
  h !! l = Some (EditorHistoryObj arr) -> EditorHistory_history l h = Return arr h.
Proof.
  intros Hl. unfold EditorHistory_history.
  step (load_Some _ _ _ Hl). reflexivity.
Qed.

Lemma is_history_write h l arr (xs ys : list jsval) :
  is_history h l arr xs -> is_history (<[arr := ArrayObj ys]> h) l arr ys.
Proof.
  intros [Hl Ha]. split.
  - rewrite list_lookup_insert_ne; [exact Hl | intros ->; congruence].
  - apply list_lookup_insert_eq. eapply lookup_lt_Some, Ha.
Qed.

Lemma is_history_write_id h l arr (xs : list jsval) :
  is_history h l arr xs -> <[arr := ArrayObj xs]> h = h.
Proof. intros [_ Ha]. apply list_insert_id, Ha. Qed.

Lemma push_eq h l arr (xs : list jsval) v :
  is_history h l arr xs ->
  EditorHistory_push l v h = Return tt (<[arr := ArrayObj (xs ++ [v])]> h).
Proof.
  intros [Hl Ha]. unfold EditorHistory_push.
  step (history_field_eq _ _ _ Hl).
  step (Array_push_eq _ _ _ _ Ha). reflexivity.
Qed.

Lemma pop_nil h l arr :
  is_history h l arr [] -> EditorHistory_pop l h = Return undefined h.
Proof.
  intros [Hl Ha]. unfold EditorHistory_pop.
  step (history_field_eq _ _ _ Hl).
  by apply Array_pop_nil.
Qed.

Lemma pop_snoc h l arr (xs : list jsval) v :
  is_history h l arr (xs ++ [v]) ->
  EditorHistory_pop l h = Return v (<[arr := ArrayObj xs]> h).
Proof.
  intros [Hl Ha]. unfold EditorHistory_pop.
  step (history_field_eq _ _ _ Hl).
  by apply Array_pop_snoc.
Qed.

Lemma pushes_eq l arr (ss : list jsval) :
  forall h (xs : list jsval),
    is_history h l arr xs ->
    pushes l ss h = Return tt (<[arr := ArrayObj (xs ++ ss)]> h).
Proof.
  induction ss as [|s ss IH]; intros h xs Hh; cbn [pushes].
  - rewrite app_nil_r. erewrite is_history_write_id; [reflexivity | exact Hh].
  - step (push_eq _ _ _ _ s Hh).
    rewrite (IH _ (xs ++ [s])); [| eapply is_history_write, Hh].
    rewrite list_insert_insert_eq, <- app_assoc. reflexivity.
Qed.

(** [n] pops hand back the [n] newest entries, newest first, then
    [undefined] once the array is empty, and leave the older entries. *)
Lemma pops_eq l arr (n : nat) :
  forall h (zs : list jsval),
    is_history h l arr zs ->
    pops l n h =
    Return (take n (reverse zs) ++ replicate (n - length zs) undefined)
           (<[arr := ArrayObj (take (length zs - n) zs)]> h).
Proof.
  induction n as [|n IH]; intros h zs Hh; cbn [pops].
  - rewrite Nat.sub_0_r, firstn_all.
    erewrite is_history_write_id; [reflexivity | exact Hh].
  - destruct zs as [|z zs _] using rev_ind.
    + step (pop_nil _ _ _ Hh).
      step (IH _ _ Hh).
      cbn. rewrite take_nil, Nat.sub_0_r. reflexivity.
    + step (pop_snoc _ _ _ _ _ Hh).
      step (IH _ zs (is_history_write _ _ _ _ _ Hh)).
      rewrite list_insert_insert_eq, reverse_snoc, length_app. cbn [length take].
      replace (length zs + 1 - S n) with (length zs - n) by lia.
      replace (S n - (length zs + 1)) with (n - length zs) by lia.
      rewrite (take_app_le zs) by lia. reflexivity.
Qed.

(** *** The properties *)

(** C2 (as the code has it): pop on a history that holds no snapshot
    returns undefined on the normal path, raising no error, and leaves the
    heap as it is; this holds for a history just constructed and for one
    whose pushed snapshots were all popped again. undefined is not a
    snapshot, and a history that holds only snapshots returns one of them;
    but undefined is also what pop returns after push(undefined). *)
Theorem C2_pop_on_empty_history_returns_undefined h l arr (xs : list jsval) :
  is_history h l arr xs ->
  Forall (is_snapshot h) xs ->
  (xs = [] -> EditorHistory_pop l h = Return undefined h) /\
  (xs = [] -> forall ss : list jsval,
     (pushes l ss;; pops l (length ss);; EditorHistory_pop l) h =
     Return undefined h) /\
  (xs <> [] -> exists s h', EditorHistory_pop l h = Return s h' /\
                            is_snapshot h s /\ s <> undefined) /\
  (this <- new_EditorHistory;; EditorHistory_pop this) h =
    Return undefined (h ++ [ArrayObj []; EditorHistoryObj (length h)]) /\
  ~ is_snapshot h undefined /\
  (xs = [] -> thrown (EditorHistory_pop l h) = None) /\
  (EditorHistory_push l undefined;; EditorHistory_pop l) h = Return undefined h.
Proof.
  intros Hh Hxs.
  repeat apply conj.
  - intros ->. eapply pop_nil, Hh.
  - intros -> ss.
    step (pushes_eq _ _ ss _ _ Hh). cbn [app].
    pose proof (is_history_write _ _ _ _ ss Hh) as Hh1.
    step (pops_eq _ _ (length ss) _ _ Hh1).
    rewrite Nat.sub_diag, take_0, list_insert_insert_eq.
    rewrite (is_history_write_id _ _ _ _ Hh). eapply pop_nil, Hh.
  - intros Hne. destruct xs as [|x xs _] using rev_ind; [done|].
    apply Forall_app in Hxs as [_ Hx].
    apply (proj1 (Forall_singleton _ _)) in Hx.
    exists x, (<[arr := ArrayObj xs]> h). split; [eapply pop_snoc, Hh|].
    split; [exact Hx|]. destruct Hx as (? & ? & -> & _). discriminate.
  - unfold new_EditorHistory.
    rewrite (bind_Return _ (λ this, EditorHistory_pop this) h
               (h ++ [ArrayObj []; EditorHistoryObj (length h)]) (S (length h))).
    + apply (pop_nil _ _ (length h)). split.
      * change (h ++ [ArrayObj []; EditorHistoryObj (length h)])
          with (h ++ [ArrayObj []] ++ [EditorHistoryObj (length h)]).
        rewrite app_assoc. apply list_lookup_middle.
        rewrite length_app. cbn. lia.
      * by apply list_lookup_middle.
    + unfold bind, alloc. rewrite length_app, <- app_assoc. cbn.
      by rewrite Nat.add_1_r.
  - intros (? & ? & [=] & _).
  - intros ->. by rewrite (pop_nil _ _ _ Hh).
  - step (push_eq _ _ _ _ undefined Hh).
    rewrite (pop_snoc _ _ _ _ _ (is_history_write _ _ _ _ _ Hh)).
    rewrite list_insert_insert_eq. by erewrite is_history_write_id.
Qed.

(** C2 (as the spec states it) fails: pop on the empty history neither
    fails with an explicit error nor returns a value of its own. It returns
    undefined on the normal path, and so does pop on the history that
    push(undefined) has made of it. *)
Lemma C2_counterexample :
  ~ signals_history_empty (EditorHistory_pop 1 empty_history_heap) /\
  EditorHistory_pop 1 empty_history_heap = Return undefined empty_history_heap /\
  EditorHistory_push 1 undefined empty_history_heap =
    Return tt undefined_history_heap /\
  EditorHistory_pop 1 undefined_history_heap =
    Return undefined empty_history_heap.
Proof.
  split; [|repeat split].
  intros [(ex & Hthrown & _)|(v & Hv & Hother)].
  - discriminate Hthrown.
  - injection Hv as <-.
    apply (Hother undefined_history_heap 1 0 [undefined]).
    + split; reflexivity.
    + discriminate.
    + reflexivity.
Qed.

(** C3: after setContent(a); s = createState(); setContent(b), the snapshot
    s still answers a to getContent; and so it does after any further calls
    of setContent and restore on the editor, whatever their arguments: the
    editor's methods write the editor's own field and nothing else. *)
Theorem C3_snapshot_independent_of_later_edits h e content0 (a b : jsval) :
  h !! e = Some (EditorObj content0) ->
  (Editor_setContent e a;;
   s <- Editor_createState e;;
   Editor_setContent e b;;
   call_getContent s) h =
    Return a (<[e := EditorObj b]> h ++ [EditorStateObj a]) /\
  exists s h1,
    (Editor_setContent e a;; Editor_createState e) h = Return s h1 /\
    forall (cs : list editor_call) h',
      final_state (do_calls e cs h1) = Some h' ->
      call_getContent s h' = Return a h'.
Proof.
  intros He.
  pose proof (lookup_lt_Some _ _ _ He) as Hlt.
  pose proof (lookup_written_editor _ _ _ a He) as He1.
  set (h1 := <[e := EditorObj a]> h) in *.
  assert (length h1 = length h) as Hlen by apply length_insert.
  assert ((h1 ++ [EditorStateObj a]) !! e = Some (EditorObj a)) as He2
    by by apply lookup_app_l_Some.
  assert ((h1 ++ [EditorStateObj a]) !! length h1 = Some (EditorStateObj a))
    as Hs by by apply list_lookup_middle.
  assert (length h1 <> e) as Hne by lia.
  assert ((Editor_setContent e a;; Editor_createState e) h =
          Return (jsref (length h1)) (h1 ++ [EditorStateObj a])) as Hcreate.
  { step (setContent_eq _ _ _ a He).
    by apply createState_eq. }
  split.
  - step (setContent_eq _ _ _ a He).
    step (createState_eq _ _ _ He1).
    step (setContent_eq _ _ _ b He2).
    rewrite insert_app_l by lia. unfold h1. rewrite list_insert_insert_eq.
    apply snapshot_getContent_eq.
    apply list_lookup_middle. by rewrite !length_insert.
  - exists (jsref (length h1)), (h1 ++ [EditorStateObj a]).
    split; [exact Hcreate|]. intros cs h' Hfin.
    eapply do_calls_write_editor_only in Hfin as [v ->]; [| exact He2].
    apply snapshot_getContent_eq. by apply lookup_write_editor.
Qed.

(** C5: getContent returns what the most recent call of setContent or
    restore gave the editor: after any sequence of such calls, it returns
    the argument of the last one if that is a setContent, and the content
    the given snapshot has captured if it is a restore, whatever the content
    was before; nothing else in the heap has changed. *)
Theorem C5_getContent_reflects_last_write h e content0
    (cs : list editor_call) (c : editor_call) :
  h !! e = Some (EditorObj content0) ->
  Forall (well_typed_call h) (cs ++ [c]) ->
  (do_calls e (cs ++ [c]);; Editor_getContent e) h =
  Return (value_of h c) (<[e := EditorObj (value_of h c)]> h).
Proof.
  intros He Hall.
  step (do_calls_well_typed _ _ _ _ _ He Hall).
  eapply getContent_eq, lookup_written_editor, He.
Qed.

(** C8: on an editor just constructed, before any setContent or restore,
    getContent returns undefined. *)
Theorem C8_fresh_editor_content_is_undefined h :
  (editor <- new_Editor;; Editor_getContent editor) h =
  Return undefined (h ++ [EditorObj undefined]).
Proof.
  unfold new_Editor.
  rewrite (bind_Return _ _ h (h ++ [EditorObj undefined]) (length h) eq_refl).
  apply getContent_eq. by apply list_lookup_middle.
Qed.

(** C9: restore(createState()) on an editor, whatever its content, leaves
    getContent and the editor object as they were: the heap only gains the
    snapshot that createState allocated. *)
Theorem C9_restore_createState_is_identity h e content :
  h !! e = Some (EditorObj content) ->
  (s <- Editor_createState e;; Editor_restore e s) h =
    Return tt (h ++ [EditorStateObj content]) /\
  (s <- Editor_createState e;; Editor_restore e s;; Editor_getContent e) h =
    Return content (h ++ [EditorStateObj content]) /\
  (h ++ [EditorStateObj content]) !! e = h !! e.
Proof.
  intros He.
  pose proof (lookup_app_l_Some _ [EditorStateObj content] _ _ He) as He1.
  assert ((h ++ [EditorStateObj content]) !! length h =
          Some (EditorStateObj content)) as Hs by by apply list_lookup_middle.
  assert (Editor_restore e (jsref (length h)) (h ++ [EditorStateObj content]) =
          Return tt (h ++ [EditorStateObj content])) as Hrestore.
  { rewrite (restore_eq _ _ _ _ _ He1 Hs). by rewrite list_insert_id. }
  repeat split.
  - by step (createState_eq _ _ _ He).
  - step (createState_eq _ _ _ He).
    step Hrestore. by apply getContent_eq.
  - by rewrite He1.
Qed.

(** C10: on a history in any state, push(s) followed at once by pop()
    returns s and leaves the heap, hence the stored sequence, as it was
    before the push. *)
Theorem C10_pop_after_push h l arr (xs : list jsval) (s : jsval) :
  is_history h l arr xs ->
  (EditorHistory_push l s;; EditorHistory_pop l) h = Return s h.
Proof.
  intros Hh.
  step (push_eq _ _ _ _ s Hh).
  rewrite (pop_snoc _ _ _ _ _ (is_history_write _ _ _ _ _ Hh)).
  rewrite list_insert_insert_eq. by erewrite is_history_write_id.
Qed.

Lemma pushes_pops_eq h l arr (xs ss : list jsval) :
  is_history h l arr xs ->
  (pushes l ss;; pops l (length ss)) h = Return (reverse ss) h.
Proof.
  intros Hh.
  step (pushes_eq _ _ ss _ _ Hh).
  rewrite (pops_eq _ _ _ _ _ (is_history_write _ _ _ _ (xs ++ ss) Hh)).
  rewrite reverse_app, take_app_length', length_app by by rewrite length_reverse.
  replace (length ss - (length xs + length ss)) with 0 by lia.
  replace (length xs + length ss - length ss) with (length xs) by lia.
  rewrite take_app_length, app_nil_r, list_insert_insert_eq.
  by erewrite is_history_write_id.
Qed.

(** C4: the history is a strict LIFO stack. On a history holding xs, oldest
    first: push(s) makes it hold xs followed by s, whether or not s is
    already stored and however long xs is, and so a sequence of pushes
    appends the pushed snapshots in order; n pops return the n newest
    entries, newest first (and undefined once none is left), and leave the
    older ones; pushes followed by as many pops return the pushed snapshots
    in reverse order and leave the history as it was. After the pushes of
    the snapshots of Hello, I am and Muhammad, three pops return the
    snapshots of Muhammad, I am and Hello, in that order. *)
Theorem C4_history_is_strict_lifo h l arr (xs : list jsval) :
  is_history h l arr xs ->
  (forall s : jsval,
     EditorHistory_push l s h = Return tt (<[arr := ArrayObj (xs ++ [s])]> h)) /\
  (forall ss : list jsval,
     pushes l ss h = Return tt (<[arr := ArrayObj (xs ++ ss)]> h)) /\
  (forall n : nat,
     pops l n h =
     Return (take n (reverse xs) ++ replicate (n - length xs) undefined)
            (<[arr := ArrayObj (take (length xs - n) xs)]> h)) /\
  (forall ss : list jsval,
     (pushes l ss;; pops l (length ss)) h = Return (reverse ss) h) /\
  exists h',
    three_pushes_three_pops [] =
    Return [jsstring "Muhammad"; jsstring "I am"; jsstring "Hello"] h'.
Proof.
  intros Hh. repeat split.
  - intros s. eapply push_eq, Hh.
  - intros ss. eapply pushes_eq, Hh.
  - intros n. eapply pops_eq, Hh.
  - intros ss. eapply pushes_pops_eq, Hh.
  - eexists. vm_compute. reflexivity.
Qed.

(** *** The theorems at concrete heaps *)

Lemma sample_heap_editor : sample_heap !! 0 = Some (EditorObj (jsstring "draft")).
Proof. reflexivity. Defined.

Lemma sample_heap_history : is_history sample_heap 3 2 [jsref 1].
Proof. split; reflexivity. Defined.

Lemma sample_heap_snapshot : is_snapshot sample_heap (jsref 1).
Proof. exists 1, (jsstring "saved"). split; reflexivity. Defined.

Lemma C2_witness :
  is_history empty_history_heap 1 0 [] /\
  Forall (is_snapshot empty_history_heap) [] /\
  EditorHistory_pop 1 empty_history_heap = Return undefined empty_history_heap.
Proof.
  assert (is_history empty_history_heap 1 0 []) as Hh by (split; reflexivity).
  split; [exact Hh|]. split; [constructor|].
  exact (proj1 (C2_pop_on_empty_history_returns_undefined
                  empty_history_heap 1 0 [] Hh (List.Forall_nil _)) eq_refl).
Defined.

Lemma C3_witness :
  sample_heap !! 0 = Some (EditorObj (jsstring "draft")) /\
  (Editor_setContent 0 (jsstring "A");;
   s <- Editor_createState 0;;
   Editor_setContent 0 (jsstring "B");;
   call_getContent s) sample_heap =
    Return (jsstring "A")
           (<[0 := EditorObj (jsstring "B")]> sample_heap
              ++ [EditorStateObj (jsstring "A")]).
Proof.
  split; [exact sample_heap_editor|].
  exact (proj1 (C3_snapshot_independent_of_later_edits
                  sample_heap 0 (jsstring "draft") (jsstring "A") (jsstring "B")
                  sample_heap_editor)).
Defined.

Lemma C4_witness :
  is_history sample_heap 3 2 [jsref 1] /\
  EditorHistory_push 3 (jsref 1) sample_heap =
    Return tt (<[2 := ArrayObj [jsref 1; jsref 1]]> sample_heap).
Proof.
  split; [exact sample_heap_history|].
  exact (proj1 (C4_history_is_strict_lifo
                  sample_heap 3 2 [jsref 1] sample_heap_history) (jsref 1)).
Defined.

Lemma C5_witness :
  sample_heap !! 0 = Some (EditorObj (jsstring "draft")) /\
  Forall (well_typed_call sample_heap)
         ([SetContent (jsstring "edit")] ++ [Restore (jsref 1)]) /\
  (do_calls 0 ([SetContent (jsstring "edit")] ++ [Restore (jsref 1)]);;
   Editor_getContent 0) sample_heap =
    Return (jsstring "saved") (<[0 := EditorObj (jsstring "saved")]> sample_heap).
Proof.
  assert (Forall (well_typed_call sample_heap)
            ([SetContent (jsstring "edit")] ++ [Restore (jsref 1)])) as Hall.
  { repeat constructor. exact sample_heap_snapshot. }
  split; [exact sample_heap_editor|]. split; [exact Hall|].
  exact (C5_getContent_reflects_last_write
           sample_heap 0 (jsstring "draft")
           [SetContent (jsstring "edit")] (Restore (jsref 1))
           sample_heap_editor Hall).
Defined.

Lemma C9_witness :
  sample_heap !! 0 = Some (EditorObj (jsstring "draft")) /\
  (s <- Editor_createState 0;; Editor_restore 0 s;; Editor_getContent 0)
    sample_heap =
    Return (jsstring "draft") (sample_heap ++ [EditorStateObj (jsstring "draft")]).
Proof.
  split; [exact sample_heap_editor|].
  exact (proj1 (proj2 (C9_restore_createState_is_identity
                         sample_heap 0 (jsstring "draft") sample_heap_editor))).
Defined.

Lemma C10_witness :
  is_history sample_heap 3 2 [jsref 1] /\
  (EditorHistory_push 3 (jsref 1);; EditorHistory_pop 3) sample_heap =
    Return (jsref 1) sample_heap.
Proof.
  split; [exact sample_heap_history|].
  exact (C10_pop_after_push sample_heap 3 2 [jsref 1] (jsref 1) sample_heap_history).
Defined.

(** The demonstration of the repository: both lines read Muhammad. *)
Example memento_runImpl_console :
  exists h,
    MementoTestImplementation_runImpl ([], []) =
    Return tt (h, [[jsstring "editor.value="; jsstring "Muhammad"];
                   [jsstring "editor.value="; jsstring "Muhammad"]]).
Proof. eexists. vm_compute. reflexivity. Qed.

End MementoSpec.

(** * Further properties of the State pattern *)

Module StateExtra.
Import State Props Clients.

Section Dispatch.
Context {W : Type}.
Implicit Types (c : Canvas W) (w : W) (t : ToolRef W) (evs : list event).

Lemma dispatch_with_tool t (ev : event) w :
  dispatch ev {| canvas := {| tool := Some t |}; world := w |} =
  in_world (handle t ev) {| canvas := {| tool := Some t |}; world := w |}.
Proof. destruct ev; reflexivity. Qed.

Lemma dispatch_all_with_tool t evs :
  forall w,
    dispatch_all evs {| canvas := {| tool := Some t |}; world := w |} =
    in_world (handle_all t evs) {| canvas := {| tool := Some t |}; world := w |}.
Proof.
  induction evs as [|ev evs IH]; intros w; [reflexivity|].
  cbn [dispatch_all handle_all]. unfold bind at 1.
  rewrite dispatch_with_tool. unfold in_world, bind. cbn [world canvas].
  destruct (handle t ev w) as [[] w'|ex w'|]; [|reflexivity..].
  rewrite IH. reflexivity.
Qed.

End Dispatch.

Lemma eraser_handle_all (evs : list event) :
  forall out : console,
    handle_all eraser evs out = Return tt (out ++ (EraserTool_line <$> evs)).
Proof.
  induction evs as [|ev evs IH]; intros out; cbn [handle_all fmap list_fmap].
  - by rewrite app_nil_r.
  - unfold bind. destruct ev; cbn; rewrite IH, <- app_assoc; reflexivity.
Qed.

Lemma selection_handle_all (evs : list event) :
  forall out : console,
    handle_all selection evs out = Return tt (out ++ (SelectionTool_line <$> evs)).
Proof.
  induction evs as [|ev evs IH]; intros out; cbn [handle_all fmap list_fmap].
  - by rewrite app_nil_r.
  - unfold bind. destruct ev; cbn; rewrite IH, <- app_assoc; reflexivity.
Qed.

(** X2: with the eraser or the selection tool set, every sequence of events
    completes normally and adds to the console one line for each event, in
    the order of the events: the tool's line for mouseDown or for mouseUp;
    what was on the console stays. *)
Theorem X2_repository_tools_log_one_line_per_event
    (c : Canvas console) (out : console) (evs : list event) :
  (Canvas_setTool eraser;; dispatch_all evs) {| canvas := c; world := out |} =
    Return tt {| canvas := {| tool := Some eraser |};
                 world := out ++ (EraserTool_line <$> evs) |} /\
  (Canvas_setTool selection;; dispatch_all evs) {| canvas := c; world := out |} =
    Return tt {| canvas := {| tool := Some selection |};
                 world := out ++ (SelectionTool_line <$> evs) |}.
Proof.
  split; unfold bind at 1; cbn [Canvas_setTool world];
    rewrite dispatch_all_with_tool; unfold in_world; cbn [world canvas].
  - by rewrite eraser_handle_all.
  - by rewrite selection_handle_all.
Qed.

(** X3: StateTestImplementation.runImpl never meets the canvas without a
    tool: on every console it returns normally, having added the eraser's
    two lines and then the selection tool's two lines, mouseUp first. *)
Theorem X3_state_runImpl_logs_four_lines (out : console) :
  StateTestImplementation_runImpl out =
  Return tt (out ++ ["erasing from canvas"; "eraser tool selected";
                     "draw box"; "selection tool selected"]).
Proof.
  unfold StateTestImplementation_runImpl. cbn.
  unfold console_log. cbn. by rewrite <- !app_assoc.
Qed.

End StateExtra.

(** * Further properties of the Memento pattern *)

Module MementoExtra.
Import Memento Props Clients MementoSpec.

Implicit Types (h : heap) (e l arr k : loc) (v c : jsval) (m : memo).
Implicit Types (xs vs : list jsval).

(** *** Snapshots and histories under writes elsewhere *)

Lemma captures_insert h k (o : object) xs vs :
  captures h xs vs ->
  (forall v, h !! k <> Some (EditorStateObj v)) ->
  captures (<[k := o]> h) xs vs.
Proof.
  intros Hc Hk. eapply Forall2_impl; [exact Hc|].
  intros x v (s & -> & Hs). exists s. split; [done|].
  rewrite list_lookup_insert_ne; [done|]. intros ->. by eapply Hk.
Qed.

Lemma captures_alloc h (o : object) xs vs :
  captures h xs vs -> captures (h ++ [o]) xs vs.
Proof.
  intros Hc. eapply Forall2_impl; [exact Hc|].
  intros x v (s & -> & Hs). exists s. split; [done|]. by apply lookup_app_l_Some.
Qed.

Lemma captures_snoc h xs vs (s : loc) v :
  captures h xs vs -> h !! s = Some (EditorStateObj v) ->
  captures h (xs ++ [jsref s]) (vs ++ [v]).
Proof.
  intros Hc Hs. apply Forall2_app; [exact Hc|].
  constructor; [by exists s | constructor].
Qed.

Lemma captures_snoc_inv h xs vs v :
  captures h xs (vs ++ [v]) ->
  exists xs' (s : loc),
    xs = xs' ++ [jsref s] /\ captures h xs' vs /\ h !! s = Some (EditorStateObj v).
Proof.
  intros Hc. apply Forall2_app_inv_r in Hc as (xs' & ys & Hxs' & Hys & ->).
  apply Forall2_cons_inv_r in Hys as (y & ys' & (s & -> & Hs) & Hnil & ->).
  apply Forall2_nil_inv_r in Hnil as ->. by exists xs', s.
Qed.

Lemma is_history_insert h l arr xs k (o : object) :
  is_history h l arr xs -> k <> l -> k <> arr ->
  is_history (<[k := o]> h) l arr xs.
Proof.
  intros [Hl Ha] ??. split; by rewrite list_lookup_insert_ne.
Qed.

Lemma is_history_alloc h l arr xs (o : object) :
  is_history h l arr xs -> is_history (h ++ [o]) l arr xs.
Proof. intros [Hl Ha]. split; by apply lookup_app_l_Some. Qed.

Lemma unchanged_outside_refl e arr h : unchanged_outside e arr h h.
Proof. by intros k o. Qed.

Lemma unchanged_outside_trans e arr h1 h2 h3 :
  unchanged_outside e arr h1 h2 -> unchanged_outside e arr h2 h3 ->
  unchanged_outside e arr h1 h3.
Proof. intros H12 H23 k o ? ? ?. eauto. Qed.

Lemma unchanged_outside_insert e arr h k (o : object) :
  k = e \/ k = arr -> unchanged_outside e arr h (<[k := o]> h).
Proof.
  intros Hk j o' Hj ? ?. rewrite list_lookup_insert_ne; [done|].
  intros <-. by destruct Hk.
Qed.

Lemma unchanged_outside_alloc e arr h (o : object) :
  unchanged_outside e arr h (h ++ [o]).
Proof. intros k o' Hk _ _. by apply lookup_app_l_Some. Qed.

(** *** save and undo on an allocated editor and history *)

Lemma save_eq h e l arr c xs :
  h !! e = Some (EditorObj c) ->
  is_history h l arr xs ->
  save e l h =
  Return tt (<[arr := ArrayObj (xs ++ [jsref (length h)])]> (h ++ [EditorStateObj c])).
Proof.
  intros He Hh. unfold save.
  step (createState_eq _ _ _ He).
  eapply push_eq, is_history_alloc, Hh.
Qed.

Lemma undo_eq h e l arr c xs (s : loc) v :
  h !! e = Some (EditorObj c) ->
  is_history h l arr (xs ++ [jsref s]) ->
  h !! s = Some (EditorStateObj v) ->
  undo e l h = Return tt (<[e := EditorObj v]> (<[arr := ArrayObj xs]> h)).
Proof.
  intros He Hh Hs. unfold undo.
  step (pop_snoc _ _ _ _ _ Hh).
  destruct Hh as [_ Ha].
  eapply restore_eq; rewrite list_lookup_insert_ne; try eassumption;
    intros ->; congruence.
Qed.

Lemma undo_nil_eq h e l arr :
  is_history h l arr [] ->
  undo e l h = Throw (cannot_read_undefined "getContent") h.
Proof.
  intros Hh. unfold undo. step (pop_nil _ _ _ Hh). reflexivity.
Qed.

Lemma default_last_cons (c0 c : jsval) (cs : list jsval) :
  default c0 (last (c :: cs)) = default c (last cs).
Proof.
  destruct cs as [|c' cs]; [done|]. rewrite last_cons_cons.
  by destruct (last (c' :: cs)) eqn:Hlast; [|apply last_None in Hlast].
Qed.

Lemma edits_eq e l (bs : list jsval) :
  forall h c,
    h !! e = Some (EditorObj c) ->
    run_ops e l (Edit <$> bs) h =
    Return tt (<[e := EditorObj (default c (last bs))]> h).
Proof.
  induction bs as [|b bs IH]; intros h c He; cbn [fmap list_fmap run_ops run_op].
  - cbn. by rewrite list_insert_id.
  - step (setContent_eq _ _ _ b He).
    rewrite (IH _ b) by (eapply lookup_written_editor, He).
    by rewrite list_insert_insert_eq, default_last_cons.
Qed.

(** *** The two classes against the text editor they implement *)

Lemma history_not_editor h e l arr c xs :
  h !! e = Some (EditorObj c) -> is_history h l arr xs -> e <> l /\ e <> arr.
Proof. intros He [Hl Ha]. split; intros ->; congruence. Qed.

Lemma run_op_refines h e l arr m (op : client_op) :
  represents h e l arr m ->
  match memo_step op m with
  | Some m' =>
      exists h', run_op e l op h = Return tt h' /\
                 represents h' e l arr m' /\ unchanged_outside e arr h h'
  | None => run_op e l op h = Throw (cannot_read_undefined "getContent") h
  end.
Proof.
  destruct m as [c vs]. intros [He (xs & Hh & Hc)]. cbn [current saved] in *.
  destruct (history_not_editor _ _ _ _ _ _ He Hh) as [Hel Hea].
  pose proof Hh as [Hl Ha].
  destruct op as [v| |]; cbn [memo_step run_op current saved].
  - exists (<[e := EditorObj v]> h). split; [eapply setContent_eq, He|].
    split; [split|].
    + eapply lookup_written_editor, He.
    + exists xs. split; [by apply is_history_insert|].
      apply captures_insert; [done | congruence].
    + apply unchanged_outside_insert. by left.
  - eexists. split; [eapply save_eq; eassumption|]. split; [split|].
    + cbn. rewrite list_lookup_insert_ne by done. by apply lookup_app_l_Some.
    + exists (xs ++ [jsref (length h)]).
      split; [eapply is_history_write, is_history_alloc, Hh|].
      apply captures_snoc.
      * apply captures_insert; [by apply captures_alloc|].
        intros v. rewrite (lookup_app_l_Some _ _ _ _ Ha). congruence.
      * rewrite list_lookup_insert_ne; [by apply list_lookup_middle|].
        apply lookup_lt_Some in Ha. lia.
    + eapply unchanged_outside_trans; [apply unchanged_outside_alloc|].
      apply unchanged_outside_insert. by right.
  - destruct vs as [|v vs _] using rev_ind.
    + cbn. apply Forall2_nil_inv_r in Hc as ->. by eapply undo_nil_eq.
    + rewrite last_snoc, removelast_last.
      apply captures_snoc_inv in Hc as (xs' & s & -> & Hc & Hs).
      exists (<[e := EditorObj v]> (<[arr := ArrayObj xs']> h)).
      split; [eapply undo_eq; eassumption|]. split; [split|].
      * apply list_lookup_insert_eq. rewrite length_insert.
        eapply lookup_lt_Some, He.
      * exists xs'. split.
        -- apply is_history_insert; [|done..]. eapply is_history_write, Hh.
        -- apply captures_insert.
           ++ apply captures_insert; [done | congruence].
           ++ intros v'. rewrite list_lookup_insert_ne by done. congruence.
      * eapply unchanged_outside_trans; apply unchanged_outside_insert; auto.
Qed.

Lemma run_ops_refines e l arr (ops : list client_op) :
  forall h m,
    represents h e l arr m ->
    exists h',
      run_ops e l ops h =
        (if (memo_run ops m).2 then Return tt h'
         else Throw (cannot_read_undefined "getContent") h') /\
      represents h' e l arr (memo_run ops m).1 /\
      unchanged_outside e arr h h'.
Proof.
  induction ops as [|op ops IH]; intros h m Hm; cbn [run_ops memo_run].
  - exists h. split; [reflexivity|]. split; [exact Hm|].
    apply unchanged_outside_refl.
  - pose proof (run_op_refines _ _ _ _ _ op Hm) as Hop.
    destruct (memo_step op m) as [m'|].
    + destruct Hop as (h1 & Hrun & Hm1 & Hout1). step Hrun.
      destruct (IH _ _ Hm1) as (h' & Hrun' & Hm' & Hout').
      exists h'. split; [exact Hrun'|]. split; [exact Hm'|].
      eapply unchanged_outside_trans; eassumption.
    + exists h. rewrite (bind_Throw _ _ _ _ _ Hop). split; [reflexivity|].
      split; [exact Hm|]. apply unchanged_outside_refl.
Qed.

(** *** Runs of the text editor *)

Lemma memo_run_app (ops1 ops2 : list client_op) :
  forall m,
    memo_run (ops1 ++ ops2) m =
    if (memo_run ops1 m).2 then memo_run ops2 (memo_run ops1 m).1
    else memo_run ops1 m.
Proof.
  induction ops1 as [|op ops1 IH]; intros m; cbn [app memo_run]; [done|].
  destruct (memo_step op m); [apply IH | done].
Qed.

Lemma memo_run_edits_and_saves (cs : list jsval) :
  forall m,
    memo_run (edits_and_saves cs) m =
    ({| current := default (current m) (last cs); saved := saved m ++ cs |}, true).
Proof.
  induction cs as [|c cs IH]; intros [c0 vs]; cbn.
  - by rewrite app_nil_r.
  - fold (edits_and_saves cs). rewrite IH. cbn. rewrite <- app_assoc. cbn.
    by rewrite default_last_cons.
Qed.

Lemma memo_run_undos (after : list jsval) :
  forall c vs v,
    memo_run (replicate (S (length after)) Undo)
             {| current := c; saved := vs ++ v :: after |} =
    ({| current := v; saved := vs |}, true).
Proof.
  induction after as [|x after IH] using rev_ind; intros c vs v.
  - cbn. by rewrite last_snoc, removelast_last.
  - rewrite length_app, Nat.add_1_r. cbn [replicate memo_run memo_step saved].
    change (vs ++ v :: after ++ [x]) with (vs ++ (v :: after) ++ [x]).
    rewrite app_assoc, last_snoc, removelast_last. apply IH.
Qed.

(** *** The properties *)

(** X4: an undo, editor.restore(history.pop()), on a history that holds
    nothing throws the engine's TypeError for reading getContent of
    undefined: pop hands undefined to restore. The heap is left as it was,
    so the editor keeps its content, and the statements after the undo do
    not run. The same holds on a history just constructed. *)
Theorem X4_undo_on_empty_history_throws h e l arr :
  is_history h l arr [] ->
  undo e l h = Throw (cannot_read_undefined "getContent") h /\
  (undo e l;; Editor_getContent e) h =
    Throw (cannot_read_undefined "getContent") h /\
  (history <- new_EditorHistory;; undo e history) h =
    Throw (cannot_read_undefined "getContent")
          (h ++ [ArrayObj []; EditorHistoryObj (length h)]).
Proof.
  intros Hh. pose proof (undo_nil_eq _ e _ _ Hh) as Hundo.
  split; [exact Hundo|]. split; [by apply bind_Throw|].
  assert (new_EditorHistory h =
          Return (S (length h)) (h ++ [ArrayObj []; EditorHistoryObj (length h)]))
    as Hnew.
  { unfold new_EditorHistory, bind, alloc.
    rewrite length_app, <- app_assoc. cbn. by rewrite Nat.add_1_r. }
  step Hnew. apply (undo_nil_eq _ _ _ (length h)). split.
  - change (h ++ [ArrayObj []; EditorHistoryObj (length h)])
      with (h ++ [ArrayObj []] ++ [EditorHistoryObj (length h)]).
    rewrite app_assoc. apply list_lookup_middle. rewrite length_app. cbn. lia.
  - by apply list_lookup_middle.
Qed.

(** X5: saving the content, then editing it any number of times, then
    undoing brings the editor back to the saved content and the history
    back to what it held before the save: the heap is the one before, plus
    the snapshot that the save allocated, which nothing refers to any
    more. *)
Theorem X5_undo_reverts_edits_since_last_save h e l arr c xs (bs : list jsval) :
  h !! e = Some (EditorObj c) ->
  is_history h l arr xs ->
  (save e l;; run_ops e l (Edit <$> bs);; undo e l) h =
    Return tt (h ++ [EditorStateObj c]) /\
  (save e l;; run_ops e l (Edit <$> bs);; undo e l;; Editor_getContent e) h =
    Return c (h ++ [EditorStateObj c]).
Proof.
  intros He Hh.
  destruct (history_not_editor _ _ _ _ _ _ He Hh) as [Hel Hea].
  pose proof Hh as [Hl Ha].
  pose proof (lookup_lt_Some _ _ _ He) as Hlte.
  pose proof (lookup_lt_Some _ _ _ Ha) as Hlta.
  set (h1 := h ++ [EditorStateObj c]).
  assert (h1 !! e = Some (EditorObj c)) as He1 by by apply lookup_app_l_Some.
  assert (is_history h1 l arr xs) as Hh1 by by apply is_history_alloc.
  assert (h1 !! length h = Some (EditorStateObj c)) as Hs1
    by by apply list_lookup_middle.
  set (h2 := <[arr := ArrayObj (xs ++ [jsref (length h)])]> h1).
  assert (h2 !! e = Some (EditorObj c)) as He2
    by by unfold h2; rewrite list_lookup_insert_ne.
  set (b := default c (last bs)).
  set (h3 := <[e := EditorObj b]> h2).
  assert (h3 !! e = Some (EditorObj b)) as He3
    by (eapply lookup_written_editor, He2).
  assert (is_history h3 l arr (xs ++ [jsref (length h)])) as Hh3.
  { apply is_history_insert; [|done..]. eapply is_history_write, Hh1. }
  assert (h3 !! length h = Some (EditorStateObj c)) as Hs3.
  { unfold h3, h2. rewrite !list_lookup_insert_ne by lia. exact Hs1. }
  assert ((save e l;; run_ops e l (Edit <$> bs);; undo e l) h = Return tt h1)
    as Hrun.
  { step (save_eq _ _ _ _ _ _ He Hh). fold h1 h2.
    step (edits_eq _ l bs _ _ He2). fold b h3.
    rewrite (undo_eq _ _ _ _ _ _ _ _ He3 Hh3 Hs3). f_equal.
    unfold h3, h2.
    rewrite (list_insert_insert_ne _ arr e) by done.
    rewrite !list_insert_insert_eq.
    rewrite (list_insert_id h1 arr) by apply Hh1.
    by apply list_insert_id. }
  split; [exact Hrun|].
  unfold bind in Hrun |- *.
  destruct (save e l h) as [[] h2'| |]; [|done..].
  destruct (run_ops e l (Edit <$> bs) h2') as [[] h3'| |]; [|done..].
  destruct (undo e l h3') as [[] h4'| |]; [|done..].
  injection Hrun as ->. by apply getContent_eq.
Qed.

(** X6: Editor and EditorHistory together implement a text editor with a
    stack of saved contents. From a heap that represents such an editor,
    any sequence of setContent, push(createState()) and restore(pop())
    ends in a heap that represents where the same operations take the text
    editor; it throws the TypeError of an undo on an empty history exactly
    when the text editor had nothing saved at an undo, and it then stops
    there. getContent reads the current content, and no object other than
    the editor and the history's array is changed. *)
Theorem X6_editor_and_history_implement_undo_stack
    h e l arr m (ops : list client_op) :
  represents h e l arr m ->
  exists h',
    run_ops e l ops h =
      (if (memo_run ops m).2 then Return tt h'
       else Throw (cannot_read_undefined "getContent") h') /\
    represents h' e l arr (memo_run ops m).1 /\
    Editor_getContent e h' = Return (current (memo_run ops m).1) h' /\
    unchanged_outside e arr h h'.
Proof.
  intros Hm. destruct (run_ops_refines e l arr ops _ _ Hm) as (h' & Hrun & Hm' & Hout).
  exists h'. repeat split; try done; try apply Hm'.
  apply getContent_eq, Hm'.
Qed.

(** X7: undo is multi-level. After setContent(c) and a save for each c of a
    list of contents, one undo more than the number of contents saved after
    v brings the editor back to v, and leaves in the history what was saved
    before v. *)
Theorem X7_undos_walk_back_through_saves
    h e l arr m (before after : list jsval) (v : jsval) :
  represents h e l arr m ->
  exists h',
    (run_ops e l (edits_and_saves (before ++ v :: after)
                    ++ replicate (S (length after)) Undo);;
     Editor_getContent e) h = Return v h' /\
    represents h' e l arr {| current := v; saved := saved m ++ before |}.
Proof.
  intros Hm.
  destruct (run_ops_refines e l arr
              (edits_and_saves (before ++ v :: after)
                 ++ replicate (S (length after)) Undo) _ _ Hm)
    as (h' & Hrun & Hm' & _).
  rewrite memo_run_app, memo_run_edits_and_saves in Hrun, Hm'.
  cbn [fst snd saved] in Hrun, Hm'.
  rewrite app_assoc, memo_run_undos in Hrun, Hm'. cbn [fst snd] in Hrun, Hm'.
  exists h'. split; [|exact Hm']. step Hrun. apply getContent_eq, Hm'.
Qed.

(** *** MementoTestImplementation.runImpl *)

Lemma in_heap_Return {A} (mm : M heap A) h h' (out : console) (a : A) :
  mm h = Return a h' -> in_heap mm (h, out) = Return a (h', out).
Proof. unfold in_heap. cbn. by intros ->. Qed.

Lemma new_EditorHistory_eq h :
  new_EditorHistory h =
  Return (S (length h)) (h ++ [ArrayObj []; EditorHistoryObj (length h)]).
Proof.
  unfold new_EditorHistory, bind, alloc.
  rewrite length_app, <- app_assoc. cbn. by rewrite Nat.add_1_r.
Qed.

(** A new editor and a new history represent the text editor that has no
    content yet and nothing saved. *)
Lemma new_editor_and_history_represent h :
  represents (h ++ [EditorObj undefined; ArrayObj []; EditorHistoryObj (S (length h))])
             (length h) (S (S (length h))) (S (length h))
             {| current := undefined; saved := [] |}.
Proof.
  split; [by apply list_lookup_middle|]. exists []. split; [split|constructor].
  - change (h ++ [EditorObj undefined; ArrayObj []; EditorHistoryObj (S (length h))])
      with (h ++ [EditorObj undefined; ArrayObj []] ++ [EditorHistoryObj (S (length h))]).
    rewrite app_assoc. apply list_lookup_middle. rewrite length_app. cbn. lia.
  - change (h ++ [EditorObj undefined; ArrayObj []; EditorHistoryObj (S (length h))])
      with (h ++ [EditorObj undefined] ++ ArrayObj [] :: [EditorHistoryObj (S (length h))]).
    rewrite app_assoc. apply list_lookup_middle. rewrite length_app. cbn. lia.
Qed.

(** One statement of a caller, on a heap that represents a text editor. *)
Ltac run_client Hm op h' Hrun Hm' Hout :=
  let Hop := fresh "Hop" in
  pose proof (run_op_refines _ _ _ _ _ op Hm) as Hop;
  cbn [memo_step run_op current saved app last removelast] in Hop;
  unfold save, undo in Hop;
  destruct Hop as (h' & Hrun & Hm' & Hout).

(** X8: MementoTestImplementation.runImpl, started on any heap and any
    console, returns normally; it logs the editor's content twice, and both
    times it is Muhammad: the undo restores the snapshot taken of the
    content it replaces. It leaves an editor holding Muhammad and a history
    holding the snapshots of Hello and of I am, and it changes no object
    that was in the heap before. *)
Theorem X8_memento_runImpl_logs_Muhammad_twice h (out : console) :
  exists h',
    MementoTestImplementation_runImpl (h, out) =
      Return tt (h', out ++ [[jsstring "editor.value="; jsstring "Muhammad"];
                              [jsstring "editor.value="; jsstring "Muhammad"]]) /\
    represents h' (length h) (S (S (length h))) (S (length h))
               {| current := jsstring "Muhammad";
                  saved := [jsstring "Hello"; jsstring "I am"] |} /\
    forall (k : loc) (o : object), h !! k = Some o -> h' !! k = Some o.
Proof.
  pose proof (new_editor_and_history_represent h) as Hm0.
  set (e := length h) in *. set (arr := S e) in *. set (l := S arr) in *.
  set (h0 := h ++ [EditorObj undefined; ArrayObj []; EditorHistoryObj arr]) in *.
  run_client Hm0 (Edit (jsstring "Hello")) h1 Hrun1 Hm1 Hout1.
  run_client Hm1 Save h2 Hrun2 Hm2 Hout2.
  run_client Hm2 (Edit (jsstring "I am")) h3 Hrun3 Hm3 Hout3.
  run_client Hm3 Save h4 Hrun4 Hm4 Hout4.
  run_client Hm4 (Edit (jsstring "Muhammad")) h5 Hrun5 Hm5 Hout5.
  run_client Hm5 Save h6 Hrun6 Hm6 Hout6.
  run_client Hm6 Undo h7 Hrun7 Hm7 Hout7.
  exists h7. split; [|split; [exact Hm7|]].
  - unfold MementoTestImplementation_runImpl.
    step (in_heap_Return new_Editor h (h ++ [EditorObj undefined]) out e eq_refl).
    step (in_heap_Return _ _ _ out _ (new_EditorHistory_eq (h ++ [EditorObj undefined]))).
    rewrite length_app, Nat.add_1_r, <- app_assoc. cbn [app length]. fold e arr l h0.
    step (in_heap_Return _ _ _ out _ Hrun1).
    step (in_heap_Return _ _ _ out _ Hrun2).
    step (in_heap_Return _ _ _ out _ Hrun3).
    step (in_heap_Return _ _ _ out _ Hrun4).
    step (in_heap_Return _ _ _ out _ Hrun5).
    step (in_heap_Return _ _ _ out _ Hrun6).
    step (in_heap_Return _ _ _ out _ (getContent_eq _ _ _ (proj1 Hm6))).
    unfold bind at 1, console_log at 1. cbn [fst snd current].
    step (in_heap_Return _ _ _ (out ++ [[jsstring "editor.value="; jsstring "Muhammad"]])
            _ Hrun7).
    step (in_heap_Return _ _ _ (out ++ [[jsstring "editor.value="; jsstring "Muhammad"]])
            _ (getContent_eq _ _ _ (proj1 Hm7))).
    unfold console_log. cbn [fst snd current]. by rewrite <- app_assoc.
  - intros k o Hk.
    assert (k < e) as Hlt by (eapply lookup_lt_Some, Hk).
    assert (unchanged_outside e arr h0 h7) as Hout
      by eauto 10 using unchanged_outside_trans.
    apply Hout; [by apply lookup_app_l_Some | lia..].
Qed.

(** *** The properties at concrete heaps *)

Lemma unsaved_heap_history : is_history unsaved_heap 2 1 [].
Proof. split; reflexivity. Defined.

Lemma sample_heap_represents :
  represents sample_heap 0 3 2
             {| current := jsstring "draft"; saved := [jsstring "saved"] |}.
Proof.
  split; [reflexivity|]. exists [jsref 1]. split; [split; reflexivity|].
  constructor; [|constructor]. exists 1. split; reflexivity.
Defined.

Lemma X4_witness :
  is_history unsaved_heap 2 1 [] /\
  undo 0 2 unsaved_heap = Throw (cannot_read_undefined "getContent") unsaved_heap.
Proof.
  split; [exact unsaved_heap_history|].
  exact (proj1 (X4_undo_on_empty_history_throws
                  unsaved_heap 0 2 1 unsaved_heap_history)).
Defined.

Lemma X5_witness :
  sample_heap !! 0 = Some (EditorObj (jsstring "draft")) /\
  is_history sample_heap 3 2 [jsref 1] /\
  (save 0 3;; run_ops 0 3 (Edit <$> [jsstring "a"; jsstring "b"]);; undo 0 3;;
   Editor_getContent 0) sample_heap =
    Return (jsstring "draft") (sample_heap ++ [EditorStateObj (jsstring "draft")]).
Proof.
  split; [exact sample_heap_editor|]. split; [exact sample_heap_history|].
  exact (proj2 (X5_undo_reverts_edits_since_last_save
                  sample_heap 0 3 2 (jsstring "draft") [jsref 1]
                  [jsstring "a"; jsstring "b"]
                  sample_heap_editor sample_heap_history)).
Defined.

Lemma X6_witness :
  represents sample_heap 0 3 2
             {| current := jsstring "draft"; saved := [jsstring "saved"] |} /\
  exists h',
    run_ops 0 3 [Edit (jsstring "x"); Undo; Undo; Save] sample_heap =
      Throw (cannot_read_undefined "getContent") h' /\
    represents h' 0 3 2 {| current := jsstring "saved"; saved := [] |} /\
    Editor_getContent 0 h' = Return (jsstring "saved") h' /\
    unchanged_outside 0 2 sample_heap h'.
Proof.
  split; [exact sample_heap_represents|].
  exact (X6_editor_and_history_implement_undo_stack
           sample_heap 0 3 2 _ [Edit (jsstring "x"); Undo; Undo; Save]
           sample_heap_represents).
Defined.

Lemma X7_witness :
  represents sample_heap 0 3 2
             {| current := jsstring "draft"; saved := [jsstring "saved"] |} /\
  exists h',
    (run_ops 0 3 (edits_and_saves ([jsstring "a"] ++ jsstring "b" :: [jsstring "c"])
                    ++ replicate 2 Undo);;
     Editor_getContent 0) sample_heap = Return (jsstring "b") h' /\
    represents h' 0 3 2
               {| current := jsstring "b"; saved := [jsstring "saved"; jsstring "a"] |}.
Proof.
  split; [exact sample_heap_represents|].
  exact (X7_undos_walk_back_through_saves
           sample_heap 0 3 2 _ [jsstring "a"] [jsstring "c"] (jsstring "b")
           sample_heap_represents).
Defined.

End MementoExtra.
